(** * bottom/pack.py: packing IRC commands (RFC 2812 subset)

    A shallow embedding of [bottom/pack.py] and the properties of its
    three functions [f], [pack] and [pack_command].

    Modelling choices, each following the Python source:
    - a Python value is a [pyval]: [None], a [str], an [int] or a [list] of
      values, which covers the three cases [pack] tells apart (a [str], an
      iterable, anything else).  Text is 7-bit ASCII, one Rocq character
      per code point; [py_upper], [py_str] and [py_repr] are Python's
      [str.upper], [str] and [repr] on such text;
    - [**kwargs] is a finite map from field names to values
      ([gmap string pyval]); [kwargs.get(k, d)] and [kwargs[k]] are lookups,
      the latter raising [KeyError k];
    - a raised exception is the [Raise] case of [result]; arguments are
      evaluated left to right, so the first exception raised is the one
      returned;
    - [pack_command] is its two guards followed by [grammar], the chain of
      [if command == ...] branches on the upper-cased name. *)

From Stdlib Require Import ZArith NArith String Ascii.
From stdpp Require Import gmap strings list fin_maps pretty.

Open Scope string_scope.

(** ** Values and exceptions *)

#[warnings="-register-all"] Inductive pyval : Type :=
  | VNone
  | VStr (s : string)
  | VInt (z : Z)
  | VList (l : list pyval).

Inductive exn : Type :=
  | ValueError (msg : string)
  | KeyError (key : string)
  | IndexError.

Inductive result (A : Type) : Type :=
  | Ok (a : A)
  | Raise (e : exn).
Arguments Ok {A} a.
Arguments Raise {A} e.

#[global] Instance result_ret : MRet result := fun A a => Ok a.
#[global] Instance result_bind : MBind result := fun A B k m =>
  match m with
  | Ok a => k a
  | Raise e => Raise e
  end.

(** ** Python built-ins used by the module *)

(** [bool(v)], as tested by [if not command]. *)
Definition truthy (v : pyval) : bool :=
  match v with
  | VNone => false
  | VStr s => negb (String.eqb s "")
  | VInt z => negb (Z.eqb z 0)
  | VList l => match l with [] => false | _ :: _ => true end
  end.

Definition upper_char (c : ascii) : ascii :=
  let n := N_of_ascii c in
  if (97 <=? n)%N && (n <=? 122)%N then ascii_of_N (n - 32) else c.

(** [s.upper()] on text of 7-bit characters: only [a]-[z] change. *)
Fixpoint py_upper (s : string) : string :=
  match s with
  | EmptyString => EmptyString
  | String c t => String (upper_char c) (py_upper t)
  end.

Definition squote : ascii := ascii_of_nat 39.
Definition dquote : ascii := ascii_of_nat 34.
Definition backslash : ascii := ascii_of_nat 92.

Fixpoint has_char (c : ascii) (s : string) : bool :=
  match s with
  | EmptyString => false
  | String d t => Ascii.eqb c d || has_char c t
  end.

Definition hex_digit (n : N) : ascii :=
  match String.get (N.to_nat n) "0123456789abcdef" with
  | Some c => c
  | None => "0"%char
  end.

(** One character of [repr(s)], [quote] being the delimiter chosen for [s]. *)
Definition repr_char (quote c : ascii) : string :=
  let n := N_of_ascii c in
  if Ascii.eqb c quote || Ascii.eqb c backslash then String backslash (String c "")
  else if (n =? 9)%N then String backslash "t"
  else if (n =? 10)%N then String backslash "n"
  else if (n =? 13)%N then String backslash "r"
  else if (n <? 32)%N || (n =? 127)%N then
    String backslash (String "x" (String (hex_digit (n / 16)) (String (hex_digit (n mod 16)) "")))
  else String c "".

Fixpoint repr_chars (quote : ascii) (s : string) : string :=
  match s with
  | EmptyString => EmptyString
  | String c t => repr_char quote c ++ repr_chars quote t
  end.

(** [repr(s)] of a [str]: single quotes, unless [s] holds a single quote
    and no double quote. *)
Definition repr_str (s : string) : string :=
  let quote := if has_char squote s && negb (has_char dquote s) then dquote else squote in
  String quote (repr_chars quote s ++ String quote "").

(** [repr(v)] when [quoted], [str(v)] otherwise: they differ on a [str]
    only, and the items of a list are always shown by [repr]. *)
Fixpoint py_show (quoted : bool) (v : pyval) : string :=
  match v with
  | VNone => "None"
  | VStr s => if quoted then repr_str s else s
  | VInt z => pretty z
  | VList l => "[" ++ String.concat ", " (map (py_show true) l) ++ "]"
  end.

Definition py_str : pyval -> string := py_show false.
Definition py_repr : pyval -> string := py_show true.

(** [tpl.format(a1, ..., an)] for templates whose only replacement fields are
    [{}], as every template of the module is. *)
Fixpoint format (tpl : string) (args : list string) : result string :=
  match tpl with
  | EmptyString => Ok EmptyString
  | String c rest =>
      match Ascii.eqb c "{", rest with
      | true, String d rest' =>
          if Ascii.eqb d "}" then
            match args with
            | [] => Raise IndexError
            | a :: args' => r ← format rest' args'; Ok (a ++ r)
            end
          else r ← format rest args; Ok (String c r)
      | _, _ => r ← format rest args; Ok (String c r)
      end
  end.

(** ** The module *)

(** [missing = object()]: an absent default is [None] of the option type. *)
Definition missing : option pyval := None.

(** The lookup shared by [f] (lines 9-11) and [pack] (lines 16-19). *)
Definition lookup_field (field : string) (kwargs : gmap string pyval)
    (dflt : option pyval) : result pyval :=
  match dflt with
  | Some d => Ok (default d (kwargs !! field))
  | None =>
      match kwargs !! field with
      | Some v => Ok v
      | None => Raise (KeyError field)
      end
  end.

Definition f (field : string) (kwargs : gmap string pyval)
    (dflt : option pyval) : result string :=
  v ← lookup_field field kwargs dflt; Ok (py_str v).

(** The [isinstance] chain of [pack] (lines 20-25). *)
Definition join_value (sep : string) (value : pyval) : string :=
  match value with
  | VStr s => s
  | VList l => String.concat sep (map py_str l)
  | _ => py_str value
  end.

Definition pack (field : string) (kwargs : gmap string pyval)
    (dflt : option pyval) (sep : string) : result string :=
  value ← lookup_field field kwargs dflt; Ok (join_value sep value).

(** [field in kwargs]. *)
Definition contains (field : string) (kwargs : gmap string pyval) : bool :=
  match kwargs !! field with
  | Some _ => true
  | None => false
  end.

(** The rules of [pack_command] (lines 132-577), [command] being the
    upper-cased name.  The branches are in source order. *)
Definition grammar (command : string) (kwargs : gmap string pyval) : result string :=
  if String.eqb command "PASS" then
    p ← f "password" kwargs missing; Ok ("PASS " ++ p)
  else if String.eqb command "NICK" then
    n ← f "nick" kwargs missing; Ok ("NICK " ++ n)
  else if String.eqb command "USER" then
    u ← f "user" kwargs missing;
    m ← f "mode" kwargs (Some (VInt 0));
    r ← f "realname" kwargs missing;
    format "USER {} {} * :{}" [u; m; r]
  else if String.eqb command "OPER" then
    u ← f "user" kwargs missing;
    p ← f "password" kwargs missing;
    format "OPER {} {}" [u; p]
  else if String.eqb command "USERMODE" then
    n ← f "nick" kwargs missing;
    m ← f "modes" kwargs (Some (VStr ""));
    format "MODE {} {}" [n; m]
  else if String.eqb command "SERVICE" then
    n ← f "nick" kwargs missing;
    d ← f "distribution" kwargs missing;
    t ← f "type" kwargs missing;
    i ← f "info" kwargs missing;
    format "SERVICE {} * {} {} 0 :{}" [n; d; t; i]
  else if String.eqb command "QUIT" then
    if contains "message" kwargs then
      m ← f "message" kwargs missing; Ok ("QUIT :" ++ m)
    else Ok "QUIT"
  else if String.eqb command "SQUIT" then
    s ← f "server" kwargs missing;
    let base := "SQUIT " ++ s in
    if contains "message" kwargs then
      m ← f "message" kwargs missing; Ok (base ++ " :" ++ m)
    else Ok base
  else if String.eqb command "JOIN" then
    c ← pack "channel" kwargs missing ",";
    k ← pack "key" kwargs (Some (VStr "")) ",";
    format "JOIN {} {}" [c; k]
  else if String.eqb command "PART" then
    c ← pack "channel" kwargs missing ",";
    let base := "PART " ++ c in
    if contains "message" kwargs then
      m ← f "message" kwargs missing; Ok (base ++ " :" ++ m)
    else Ok base
  else if String.eqb command "CHANNELMODE" then
    c ← f "channel" kwargs missing;
    m ← f "modes" kwargs missing;
    p ← f "params" kwargs (Some (VStr ""));
    format "MODE {} {} {}" [c; m; p]
  else if String.eqb command "TOPIC" then
    c ← f "channel" kwargs missing;
    let base := "TOPIC " ++ c in
    if contains "message" kwargs then
      m ← f "message" kwargs missing; Ok (base ++ " :" ++ m)
    else Ok base
  else if String.eqb command "NAMES" then
    c ← pack "channel" kwargs (Some (VStr "")) ","; Ok ("NAMES " ++ c)
  else if String.eqb command "LIST" then
    c ← pack "channel" kwargs (Some (VStr "")) ","; Ok ("LIST " ++ c)
  else if String.eqb command "INVITE" then
    n ← f "nick" kwargs missing;
    c ← f "channel" kwargs missing;
    format "INVITE {} {}" [n; c]
  else if String.eqb command "KICK" then
    c ← pack "channel" kwargs missing ",";
    n ← pack "nick" kwargs missing ",";
    base ← format "KICK {} {}" [c; n];
    if contains "message" kwargs then
      m ← pack "message" kwargs missing ","; Ok (base ++ " :" ++ m)
    else Ok base
  else if String.eqb command "PRIVMSG" then
    t ← f "target" kwargs missing;
    m ← f "message" kwargs missing;
    format "PRIVMSG {} :{}" [t; m]
  else if String.eqb command "NOTICE" then
    t ← f "target" kwargs missing;
    m ← f "message" kwargs missing;
    format "NOTICE {} :{}" [t; m]
  else if String.eqb command "MOTD" then Ok "MOTD"
  else if String.eqb command "LUSERS" then
    m ← f "mask" kwargs (Some (VStr "")); Ok ("LUSERS " ++ m)
  else if String.eqb command "VERSION" then Ok "VERSION"
  else if String.eqb command "STATS" then
    q ← f "query" kwargs (Some (VStr "")); Ok ("STATS " ++ q)
  else if String.eqb command "LINKS" then
    if contains "remote" kwargs then
      r ← f "remote" kwargs missing;
      m ← f "mask" kwargs missing;
      format "LINKS {} {}" [r; m]
    else if contains "mask" kwargs then
      m ← f "mask" kwargs missing; Ok ("LINKS " ++ m)
    else Ok "LINKS"
  else if String.eqb command "TIME" then Ok "TIME"
  else if String.eqb command "CONNECT" then
    t ← f "target" kwargs missing;
    p ← f "port" kwargs missing;
    r ← f "remote" kwargs (Some (VStr ""));
    format "CONNECT {} {} {}" [t; p; r]
  else if String.eqb command "TRACE" then Ok "TRACE"
  else if String.eqb command "ADMIN" then Ok "ADMIN"
  else if String.eqb command "INFO" then Ok "INFO"
  else if String.eqb command "SERVLIST" then
    m ← f "mask" kwargs (Some (VStr ""));
    t ← f "type" kwargs (Some (VStr ""));
    format "SERVLIST {} {}" [m; t]
  else if String.eqb command "SQUERY" then
    t ← f "target" kwargs missing;
    m ← f "message" kwargs missing;
    format "SQUERY {} :{}" [t; m]
  else if String.eqb command "WHO" then
    m ← f "mask" kwargs (Some (VStr "")); Ok ("WHO " ++ m)
  else if String.eqb command "WHOIS" then
    m ← f "mask" kwargs missing; Ok ("WHOIS " ++ m)
  else if String.eqb command "WHOWAS" then
    n ← pack "nick" kwargs missing ",";
    c ← f "count" kwargs (Some (VStr ""));
    format "WHOWAS {} {}" [n; c]
  else if String.eqb command "KILL" then
    n ← f "nick" kwargs missing;
    m ← f "message" kwargs missing;
    format "KILL {} :{}" [n; m]
  else if String.eqb command "PING" then
    a ← f "server1" kwargs (Some (VStr ""));
    b ← f "server2" kwargs (Some (VStr ""));
    message ← format "PING {} {}" [a; b];
    if contains "message" kwargs then
      m ← f "message" kwargs missing; Ok (message ++ " :" ++ m)
    else Ok message
  else if String.eqb command "PONG" then
    a ← f "server1" kwargs (Some (VStr ""));
    b ← f "server2" kwargs (Some (VStr ""));
    message ← format "PONG {} {}" [a; b];
    if contains "message" kwargs then
      m ← f "message" kwargs missing; Ok (message ++ " :" ++ m)
    else Ok message
  else if String.eqb command "AWAY" then
    if contains "message" kwargs then
      m ← f "message" kwargs missing; Ok ("AWAY :" ++ m)
    else Ok "AWAY"
  else if String.eqb command "REHASH" then Ok "REHASH"
  else if String.eqb command "DIE" then Ok "DIE"
  else if String.eqb command "RESTART" then Ok "RESTART"
  else if String.eqb command "SUMMON" then
    n ← f "nick" kwargs missing;
    c ← f "channel" kwargs (Some (VStr ""));
    format "SUMMON {} {}" [n; c]
  else if String.eqb command "USERS" then Ok "USERS"
  else if String.eqb command "WALLOPS" then
    m ← f "message" kwargs missing; Ok ("WALLOPS :" ++ m)
  else if String.eqb command "USERHOST" then
    n ← pack "nick" kwargs missing " "; Ok ("USERHOST " ++ n)
  else if String.eqb command "ISON" then
    n ← pack "nick" kwargs missing " "; Ok ("ISON " ++ n)
  else
    u ← format "Unknown command '{}'" [command]; Raise (ValueError u).

(** [pack_command(command, **kwargs)]: the two guards of lines 30-35, then
    the rules.  Of the values of [pyval] only a [str] has [upper]; on the
    others [command.upper()] raises [AttributeError]. *)
Definition pack_command (command : pyval) (kwargs : gmap string pyval) : result string :=
  if negb (truthy command) then Raise (ValueError "Must provide a command")
  else
    match command with
    | VStr s => grammar (py_upper s) kwargs
    | _ => Raise (ValueError "Command must be a str")
    end.

(** ** Tables read off the rules, used to state properties over all commands *)

(** The names tested by the branches of [grammar], in source order. *)
Definition supported : list string :=
  [ "PASS"; "NICK"; "USER"; "OPER"; "USERMODE"; "SERVICE"; "QUIT"; "SQUIT";
    "JOIN"; "PART"; "CHANNELMODE"; "TOPIC"; "NAMES"; "LIST"; "INVITE"; "KICK";
    "PRIVMSG"; "NOTICE"; "MOTD"; "LUSERS"; "VERSION"; "STATS"; "LINKS"; "TIME";
    "CONNECT"; "TRACE"; "ADMIN"; "INFO"; "SERVLIST"; "SQUERY"; "WHO"; "WHOIS";
    "WHOWAS"; "KILL"; "PING"; "PONG"; "AWAY"; "REHASH"; "DIE"; "RESTART";
    "SUMMON"; "USERS"; "WALLOPS"; "USERHOST"; "ISON" ].

(** For each command, the fields its rule reads with no default and on
    every path, in the order the rule reads them. *)
Definition required_fields : list (string * list string) :=
  [ ("PASS", ["password"]); ("NICK", ["nick"]); ("USER", ["user"; "realname"]);
    ("OPER", ["user"; "password"]); ("USERMODE", ["nick"]);
    ("SERVICE", ["nick"; "distribution"; "type"; "info"]);
    ("SQUIT", ["server"]); ("JOIN", ["channel"]); ("PART", ["channel"]);
    ("CHANNELMODE", ["channel"; "modes"]); ("TOPIC", ["channel"]);
    ("INVITE", ["nick"; "channel"]); ("KICK", ["channel"; "nick"]);
    ("PRIVMSG", ["target"; "message"]); ("NOTICE", ["target"; "message"]);
    ("CONNECT", ["target"; "port"]); ("SQUERY", ["target"; "message"]);
    ("WHOIS", ["mask"]); ("WHOWAS", ["nick"]); ("KILL", ["nick"; "message"]);
    ("SUMMON", ["nick"]); ("WALLOPS", ["message"]); ("USERHOST", ["nick"]);
    ("ISON", ["nick"]) ].

(** The first field of [fields] that [kwargs] lacks. *)
Fixpoint first_absent (fields : list string) (kwargs : gmap string pyval) : option string :=
  match fields with
  | [] => None
  | fld :: rest => if contains fld kwargs then first_absent rest kwargs else Some fld
  end.

(** The (command, field) pairs read through [pack]. *)
Definition list_joinable : list (string * string) :=
  [ ("JOIN", "channel"); ("JOIN", "key"); ("PART", "channel");
    ("NAMES", "channel"); ("LIST", "channel"); ("KICK", "channel");
    ("KICK", "nick"); ("KICK", "message"); ("WHOWAS", "nick");
    ("USERHOST", "nick"); ("ISON", "nick") ].

(** [s] starts with [p], as [s.startswith(p)] tests. *)
Definition begins_with (p s : string) : Prop := exists rest, s = p ++ rest.

(** A value that is no sequence. *)
Definition is_scalar (v : pyval) : Prop :=
  match v with
  | VList _ => False
  | _ => True
  end.

(** Example parameter sets. *)
Definition usermode_example : gmap string pyval :=
  {[ "nick" := VStr "WiZ"; "modes" := VStr "-w" ]}.

Definition join_example : gmap string pyval := {[ "channel" := VStr "#a" ]}.

Definition links_example : gmap string pyval := {[ "remote" := VStr "*.edu" ]}.

Definition service_example : gmap string pyval :=
  {[ "nick" := VStr "dict"; "distribution" := VStr "*.fr";
     "type" := VInt 7; "info" := VStr "French" ]}.

(** ** Further tables read off the rules *)

(** The fields [required_fields] lists for [command], none when it has no entry. *)
Definition required_of (command : string) : list string :=
  match List.find (fun e => String.eqb (fst e) command) required_fields with
  | Some e => snd e
  | None => []
  end.

(** For each command, every field its rule names, in reading order. *)
Definition fields_read : list (string * list string) :=
  [ ("PASS", ["password"]); ("NICK", ["nick"]); ("USER", ["user"; "mode"; "realname"]);
    ("OPER", ["user"; "password"]); ("USERMODE", ["nick"; "modes"]);
    ("SERVICE", ["nick"; "distribution"; "type"; "info"]); ("QUIT", ["message"]);
    ("SQUIT", ["server"; "message"]); ("JOIN", ["channel"; "key"]);
    ("PART", ["channel"; "message"]); ("CHANNELMODE", ["channel"; "modes"; "params"]);
    ("TOPIC", ["channel"; "message"]); ("NAMES", ["channel"]); ("LIST", ["channel"]);
    ("INVITE", ["nick"; "channel"]); ("KICK", ["channel"; "nick"; "message"]);
    ("PRIVMSG", ["target"; "message"]); ("NOTICE", ["target"; "message"]);
    ("MOTD", []); ("LUSERS", ["mask"]); ("VERSION", []); ("STATS", ["query"]);
    ("LINKS", ["remote"; "mask"]); ("TIME", []); ("CONNECT", ["target"; "port"; "remote"]);
    ("TRACE", []); ("ADMIN", []); ("INFO", []); ("SERVLIST", ["mask"; "type"]);
    ("SQUERY", ["target"; "message"]); ("WHO", ["mask"]); ("WHOIS", ["mask"]);
    ("WHOWAS", ["nick"; "count"]); ("KILL", ["nick"; "message"]);
    ("PING", ["server1"; "server2"; "message"]); ("PONG", ["server1"; "server2"; "message"]);
    ("AWAY", ["message"]); ("REHASH", []); ("DIE", []); ("RESTART", []);
    ("SUMMON", ["nick"; "channel"]); ("USERS", []); ("WALLOPS", ["message"]);
    ("USERHOST", ["nick"]); ("ISON", ["nick"]) ].

(** The (command, field, default) triples of the accessors called with a default. *)
Definition optional_defaults : list (string * string * pyval) :=
  [ ("USER", "mode", VInt 0); ("USERMODE", "modes", VStr ""); ("JOIN", "key", VStr "");
    ("CHANNELMODE", "params", VStr ""); ("NAMES", "channel", VStr "");
    ("LIST", "channel", VStr ""); ("LUSERS", "mask", VStr ""); ("STATS", "query", VStr "");
    ("CONNECT", "remote", VStr ""); ("SERVLIST", "mask", VStr "");
    ("SERVLIST", "type", VStr ""); ("WHO", "mask", VStr ""); ("WHOWAS", "count", VStr "");
    ("PING", "server1", VStr ""); ("PING", "server2", VStr "");
    ("PONG", "server1", VStr ""); ("PONG", "server2", VStr "");
    ("SUMMON", "channel", VStr "") ].

(** The commands that append [message] through [f] when it is given. *)
Definition message_suffix_commands : list string :=
  [ "QUIT"; "SQUIT"; "PART"; "TOPIC"; "PING"; "PONG"; "AWAY" ].

(** The commands whose rule reads one field, with the empty default. *)
Definition single_optional_field : list (string * string) :=
  [ ("NAMES", "channel"); ("LIST", "channel"); ("LUSERS", "mask");
    ("STATS", "query"); ("WHO", "mask") ].

(** The commands whose rule reads no field. *)
Definition no_arguments : list string :=
  [ "MOTD"; "VERSION"; "TIME"; "TRACE"; "ADMIN"; "INFO"; "REHASH"; "DIE";
    "RESTART"; "USERS" ].

(** The two names whose rule writes the wire command MODE. *)
Definition sent_as_mode (command : string) : bool :=
  String.eqb command "USERMODE" || String.eqb command "CHANNELMODE".

(** The calls whose rule returns the command word alone: a command of
    [no_arguments]; QUIT and AWAY without [message]; LINKS with neither
    [remote] nor [mask]. *)
Definition returns_bare_word (command : string) (kwargs : gmap string pyval) : bool :=
  existsb (String.eqb command) no_arguments
  || ((String.eqb command "QUIT" || String.eqb command "AWAY")
      && negb (contains "message" kwargs))
  || (String.eqb command "LINKS"
      && negb (contains "remote" kwargs) && negb (contains "mask" kwargs)).

(** Text of 7-bit characters, on which [py_upper] is [str.upper]. *)
Fixpoint ascii_text (s : string) : bool :=
  match s with
  | EmptyString => true
  | String c t => (N_of_ascii c <? 128)%N && ascii_text t
  end.

(** The commands the model covers: [None], an [int], a [list], or a [str]
    of 7-bit characters. *)
Definition ascii_command (command : pyval) : Prop :=
  match command with
  | VStr s => ascii_text s = true
  | _ => True
  end.

(** ** Strings and templates *)

Lemma append_empty_r (s : string) : s ++ "" = s.
Proof.
  induction s as [|c s IH]; [done |].
  change (String c s ++ "") with (String c (s ++ "")). by rewrite IH.
Qed.

(** Runs [format] on a literal template and flattens the binds. *)
Ltac run_format := simpl; rewrite ?append_empty_r.

(** ** The field accessors *)

Lemma f_present fld (kw : gmap string pyval) dflt v :
  kw !! fld = Some v -> f fld kw dflt = Ok (py_str v).
Proof. intros H. unfold f, lookup_field. rewrite H. by destruct dflt. Qed.

Lemma f_absent fld (kw : gmap string pyval) :
  kw !! fld = None -> f fld kw missing = Raise (KeyError fld).
Proof. intros H. unfold f, lookup_field, missing. by rewrite H. Qed.

Lemma f_default fld (kw : gmap string pyval) d :
  kw !! fld = None -> f fld kw (Some d) = Ok (py_str d).
Proof. intros H. unfold f, lookup_field. by rewrite H. Qed.

Lemma pack_present fld (kw : gmap string pyval) dflt sep v :
  kw !! fld = Some v -> pack fld kw dflt sep = Ok (join_value sep v).
Proof. intros H. unfold pack, lookup_field. rewrite H. by destruct dflt. Qed.

Lemma pack_absent fld (kw : gmap string pyval) sep :
  kw !! fld = None -> pack fld kw missing sep = Raise (KeyError fld).
Proof. intros H. unfold pack, lookup_field, missing. by rewrite H. Qed.

Lemma pack_default fld (kw : gmap string pyval) d sep :
  kw !! fld = None -> pack fld kw (Some d) sep = Ok (join_value sep d).
Proof. intros H. unfold pack, lookup_field. by rewrite H. Qed.

Lemma contains_present fld (kw : gmap string pyval) v :
  kw !! fld = Some v -> contains fld kw = true.
Proof. intros H. unfold contains. by rewrite H. Qed.

Lemma contains_absent fld (kw : gmap string pyval) :
  kw !! fld = None -> contains fld kw = false.
Proof. intros H. unfold contains. by rewrite H. Qed.

(** Rewrites every accessor whose field has a known lookup. *)
Ltac read_fields :=
  repeat match goal with
  | H : ?kw !! ?fld = Some ?v |- context [f ?fld ?kw ?d] =>
      rewrite (f_present fld kw d v H)
  | H : ?kw !! ?fld = None |- context [f ?fld ?kw missing] =>
      rewrite (f_absent fld kw H)
  | H : ?kw !! ?fld = None |- context [f ?fld ?kw (Some ?d)] =>
      rewrite (f_default fld kw d H)
  | H : ?kw !! ?fld = Some ?v |- context [pack ?fld ?kw ?d ?sep] =>
      rewrite (pack_present fld kw d sep v H)
  | H : ?kw !! ?fld = None |- context [pack ?fld ?kw missing ?sep] =>
      rewrite (pack_absent fld kw sep H)
  | H : ?kw !! ?fld = None |- context [pack ?fld ?kw (Some ?d) ?sep] =>
      rewrite (pack_default fld kw d sep H)
  | H : ?kw !! ?fld = Some ?v |- context [contains ?fld ?kw] =>
      rewrite (contains_present fld kw v H)
  | H : ?kw !! ?fld = None |- context [contains ?fld ?kw] =>
      rewrite (contains_absent fld kw H)
  end.

(** Splits on the presence of every field the goal reads. *)
Ltac split_fields :=
  repeat match goal with
  | |- context [f ?fld ?kw _] => destruct (kw !! fld) eqn:?; read_fields
  | |- context [pack ?fld ?kw _ _] => destruct (kw !! fld) eqn:?; read_fields
  | |- context [contains ?fld ?kw] => destruct (kw !! fld) eqn:?; read_fields
  end.

(** ** The dispatcher *)

Lemma py_upper_nonempty s : py_upper s <> "" -> truthy (VStr s) = true.
Proof. by destruct s. Qed.

Lemma pack_command_str s kw :
  py_upper s <> "" -> pack_command (VStr s) kw = grammar (py_upper s) kw.
Proof. intros H. unfold pack_command. by rewrite (py_upper_nonempty s H). Qed.

(** Selects the branch of [grammar] for a literal command name. *)
Ltac select_rule :=
  unfold grammar; cbn [String.eqb Ascii.eqb Bool.eqb andb].

Ltac run_command :=
  rewrite pack_command_str by discriminate;
  repeat match goal with
  | |- context [py_upper ?s] =>
      let u := eval vm_compute in (py_upper s) in change (py_upper s) with u
  end;
  select_rule.

(** C1 (as amended): SERVICE emits the distribution before the type. *)
Theorem service_distribution_before_type (kw : gmap string pyval) n d t i :
  kw !! "nick" = Some n -> kw !! "distribution" = Some d ->
  kw !! "type" = Some t -> kw !! "info" = Some i ->
  pack_command (VStr "SERVICE") kw =
    Ok ("SERVICE " ++ py_str n ++ " * " ++ py_str d ++ " " ++ py_str t ++ " 0 :" ++ py_str i).
Proof. intros Hn Hd Ht Hi. run_command. read_fields. run_format. reflexivity. Qed.

Lemma service_distribution_before_type_witness :
  pack_command (VStr "SERVICE") service_example = Ok "SERVICE dict * *.fr 7 0 :French".
Proof.
  exact (service_distribution_before_type service_example
           (VStr "dict") (VStr "*.fr") (VInt 7) (VStr "French")
           eq_refl eq_refl eq_refl eq_refl).
Defined.

(** C1 (as stated) fails: with type 7 and distribution [*.fr] the line
    has [*.fr 7], not [7 *.fr]. *)
Lemma service_type_first_counterexample :
  pack_command (VStr "SERVICE") service_example = Ok "SERVICE dict * *.fr 7 0 :French"
  /\ pack_command (VStr "SERVICE") service_example <>
       Ok ("SERVICE " ++ py_str (VStr "dict") ++ " * " ++ py_str (VInt 7) ++ " "
             ++ py_str (VStr "*.fr") ++ " 0 :" ++ py_str (VStr "French")).
Proof. split; [reflexivity | discriminate]. Qed.

(** C2 (as amended): USERHOST and ISON read [nick] with no default, so a
    parameter set without [nick] raises [KeyError nick]. *)
Theorem userhost_ison_nick_required (kw : gmap string pyval) :
  kw !! "nick" = None ->
  pack_command (VStr "USERHOST") kw = Raise (KeyError "nick")
  /\ pack_command (VStr "ISON") kw = Raise (KeyError "nick").
Proof. intros Hn. split; run_command; read_fields; reflexivity. Qed.

Lemma userhost_ison_nick_required_witness :
  pack_command (VStr "USERHOST") ∅ = Raise (KeyError "nick")
  /\ pack_command (VStr "ISON") ∅ = Raise (KeyError "nick").
Proof. exact (userhost_ison_nick_required ∅ eq_refl). Defined.

(** C2 (as stated) fails: with no [nick] neither call returns the command
    word and a space. *)
Lemma userhost_ison_default_counterexample :
  pack_command (VStr "USERHOST") ∅ = Raise (KeyError "nick")
  /\ pack_command (VStr "USERHOST") ∅ <> Ok "USERHOST "
  /\ pack_command (VStr "ISON") ∅ = Raise (KeyError "nick")
  /\ pack_command (VStr "ISON") ∅ <> Ok "ISON ".
Proof. repeat split; reflexivity || discriminate. Qed.

(** C4: JOIN with a channel and no key ends in the space that precedes
    the empty default of [key]. *)
Theorem join_without_key_trailing_space (kw : gmap string pyval) v :
  kw !! "channel" = Some v -> kw !! "key" = None ->
  pack_command (VStr "JOIN") kw = Ok ("JOIN " ++ join_value "," v ++ " ").
Proof. intros Hc Hk. run_command. read_fields. run_format. reflexivity. Qed.

Lemma join_without_key_trailing_space_witness :
  pack_command (VStr "JOIN") join_example = Ok "JOIN #a ".
Proof.
  exact (join_without_key_trailing_space join_example (VStr "#a") eq_refl eq_refl).
Defined.

(** C7: when the value [pack] resolves is a [str], [pack] returns it as it
    is, whatever the separator. *)
Theorem pack_str_unchanged fld (kw : gmap string pyval) dflt sep s :
  lookup_field fld kw dflt = Ok (VStr s) -> pack fld kw dflt sep = Ok s.
Proof. intros H. unfold pack. rewrite H. reflexivity. Qed.

Lemma pack_str_unchanged_witness :
  pack "channel" {[ "channel" := VStr "#ab" ]} missing "," = Ok "#ab"
  /\ pack "channel" {[ "channel" := VList [VStr "#"; VStr "a"; VStr "b"] ]} missing ","
       = Ok "#,a,b".
Proof.
  split.
  - exact (pack_str_unchanged "channel" {[ "channel" := VStr "#ab" ]} missing "," "#ab"
             eq_refl).
  - reflexivity.
Defined.

(** C9: QUIT is the bare word without [message], and [QUIT :] followed by
    the message with it. *)
Theorem quit_shape :
  pack_command (VStr "QUIT") ∅ = Ok "QUIT"
  /\ (forall kw : gmap string pyval, kw !! "message" = None ->
        pack_command (VStr "QUIT") kw = Ok "QUIT")
  /\ (forall (kw : gmap string pyval) v, kw !! "message" = Some v ->
        pack_command (VStr "QUIT") kw = Ok ("QUIT :" ++ py_str v)).
Proof.
  split; [reflexivity |].
  split; [intros kw H | intros kw v H]; run_command; read_fields; reflexivity.
Qed.

Lemma quit_shape_witness :
  pack_command (VStr "QUIT") {[ "message" := VStr "bye" ]} = Ok "QUIT :bye".
Proof.
  exact (proj2 (proj2 quit_shape) {[ "message" := VStr "bye" ]} (VStr "bye") eq_refl).
Defined.

(** C10: LINKS needs [mask] exactly when [remote] is given. *)
Theorem links_mask_required_with_remote (kw : gmap string pyval) :
  (forall r, kw !! "remote" = Some r -> kw !! "mask" = None ->
     pack_command (VStr "LINKS") kw = Raise (KeyError "mask"))
  /\ (forall m, kw !! "remote" = None -> kw !! "mask" = Some m ->
     pack_command (VStr "LINKS") kw = Ok ("LINKS " ++ py_str m))
  /\ (kw !! "remote" = None -> kw !! "mask" = None ->
     pack_command (VStr "LINKS") kw = Ok "LINKS").
Proof.
  repeat split; intros; run_command; read_fields; reflexivity.
Qed.

Lemma links_mask_required_with_remote_witness :
  pack_command (VStr "LINKS") links_example = Raise (KeyError "mask").
Proof.
  exact (proj1 (links_mask_required_with_remote links_example) (VStr "*.edu")
           eq_refl eq_refl).
Defined.

(** C6: two spellings with the same upper-case form give the same result,
    output or exception. *)
Theorem command_name_case_insensitive c1 c2 (kw : gmap string pyval) :
  py_upper c1 = py_upper c2 ->
  pack_command (VStr c1) kw = pack_command (VStr c2) kw.
Proof.
  intros H. unfold pack_command.
  destruct c1 as [|a1 c1], c2 as [|a2 c2]; try discriminate; [reflexivity |].
  cbn [truthy String.eqb negb]. by rewrite H.
Qed.

Lemma command_name_case_insensitive_witness :
  pack_command (VStr "join") join_example = pack_command (VStr "JOIN") join_example
  /\ pack_command (VStr "Join") join_example = pack_command (VStr "JOIN") join_example.
Proof.
  split.
  - exact (command_name_case_insensitive "join" "JOIN" join_example eq_refl).
  - exact (command_name_case_insensitive "Join" "JOIN" join_example eq_refl).
Defined.

(** ** The examples of the source comments, run through the model *)

Example pass_example :
  pack_command (VStr "PASS") {[ "password" := VStr "secretpasswordhere" ]}
    = Ok "PASS secretpasswordhere".
Proof. reflexivity. Qed.

Example user_default_mode_example :
  pack_command (VStr "user") {[ "user" := VStr "guest"; "realname" := VStr "Ronnie Reagan" ]}
    = Ok "USER guest 0 * :Ronnie Reagan".
Proof. reflexivity. Qed.

Example join_lists_example :
  pack_command (VStr "JOIN")
    {[ "channel" := VList [VStr "#a"; VStr "#b"]; "key" := VList [VStr "k1"; VStr "k2"] ]}
    = Ok "JOIN #a,#b k1,k2".
Proof. reflexivity. Qed.

Example kick_lists_example :
  pack_command (VStr "KICK")
    {[ "channel" := VStr "#Finnish"; "nick" := VList [VStr "WiZ"; VStr "Wiz-Bot"];
       "message" := VStr "Both speaking English" ]}
    = Ok "KICK #Finnish WiZ,Wiz-Bot :Both speaking English".
Proof. reflexivity. Qed.

Example userhost_example :
  pack_command (VStr "USERHOST") {[ "nick" := VList [VStr "Wiz"; VStr "Michael"; VStr "syrk"] ]}
    = Ok "USERHOST Wiz Michael syrk".
Proof. reflexivity. Qed.

Example whowas_count_example :
  pack_command (VStr "WHOWAS") {[ "nick" := VStr "Wiz"; "count" := VInt 9 ]}
    = Ok "WHOWAS Wiz 9".
Proof. reflexivity. Qed.

Example empty_command_example :
  pack_command (VStr "") ∅ = Raise (ValueError "Must provide a command")
  /\ pack_command VNone ∅ = Raise (ValueError "Must provide a command").
Proof. split; reflexivity. Qed.

Example non_str_command_example :
  pack_command (VInt 3) ∅ = Raise (ValueError "Command must be a str").
Proof. reflexivity. Qed.

Example unknown_command_example :
  pack_command (VStr "xyzzy") ∅ = Raise (ValueError "Unknown command 'XYZZY'").
Proof. reflexivity. Qed.

(** ** Properties over all commands *)

(** A name outside [supported] reaches the last branch. *)
Lemma grammar_unknown command (kw : gmap string pyval) :
  ~ In command supported ->
  grammar command kw = Raise (ValueError ("Unknown command '" ++ command ++ "'")).
Proof.
  intros Hnot. unfold grammar.
  repeat match goal with
  | |- context [String.eqb command ?name] =>
      destruct (String.eqb_spec command name) as [->|_];
      [exfalso; apply Hnot; simpl; tauto |]
  end.
  reflexivity.
Qed.

(** C3 (as amended): the output of a supported command is its upper-cased
    name alone for the calls of [returns_bare_word] (a command that reads
    no field, QUIT or AWAY without [message], LINKS with neither [remote]
    nor [mask]) and begins with the name and a space for every other
    call; except for USERMODE and CHANNELMODE, whose output begins with
    [MODE] and a space. *)
Theorem output_begins_with_command c (kw : gmap string pyval) out :
  In (py_upper c) supported ->
  pack_command (VStr c) kw = Ok out ->
  if sent_as_mode (py_upper c) then begins_with "MODE " out
  else if returns_bare_word (py_upper c) kw then out = py_upper c
  else begins_with (py_upper c ++ " ") out.
Proof.
  intros Hin. simpl in Hin.
  repeat destruct Hin as [Hin|Hin]; try contradiction;
    (rewrite pack_command_str by (rewrite <- Hin; discriminate));
    rewrite <- Hin; unfold sent_as_mode, returns_bare_word, no_arguments;
    cbn [existsb orb]; select_rule; cbn [orb andb negb];
    split_fields; cbn [orb andb negb]; run_format;
    intros [= <-]; first [ reflexivity | eexists; reflexivity ].
Qed.

Lemma output_begins_with_command_witness :
  begins_with ("PASS" ++ " ") "PASS secret"
  /\ "MOTD" = "MOTD"
  /\ "QUIT" = "QUIT"
  /\ begins_with ("QUIT" ++ " ") "QUIT :bye"
  /\ begins_with "MODE " "MODE WiZ -w".
Proof.
  split; [| split; [| split; [| split]]].
  - exact (output_begins_with_command "pass" {[ "password" := VStr "secret" ]}
             "PASS secret" ltac:(simpl; tauto) eq_refl
           <: begins_with ("PASS" ++ " ") "PASS secret").
  - exact (output_begins_with_command "motd" ∅ "MOTD" ltac:(simpl; tauto) eq_refl
           <: "MOTD" = "MOTD").
  - exact (output_begins_with_command "quit" ∅ "QUIT" ltac:(simpl; tauto) eq_refl
           <: "QUIT" = "QUIT").
  - exact (output_begins_with_command "quit" {[ "message" := VStr "bye" ]}
             "QUIT :bye" ltac:(simpl; tauto) eq_refl
           <: begins_with ("QUIT" ++ " ") "QUIT :bye").
  - exact (output_begins_with_command "usermode" usermode_example "MODE WiZ -w"
             ltac:(simpl; tauto) eq_refl
           <: begins_with "MODE " "MODE WiZ -w").
Defined.

(** C3 (as stated) fails: the output of USERMODE neither is [USERMODE] nor
    begins with [USERMODE] and a space. *)
Lemma usermode_output_counterexample :
  In "USERMODE" supported
  /\ pack_command (VStr "USERMODE") usermode_example = Ok "MODE WiZ -w"
  /\ "MODE WiZ -w" <> "USERMODE"
  /\ ~ begins_with ("USERMODE" ++ " ") "MODE WiZ -w".
Proof.
  repeat split; [simpl; tauto | discriminate |].
  intros [rest H]. discriminate H.
Qed.

(** *** One-element sequences *)

Lemma join_value_singleton sep v :
  is_scalar v -> join_value sep (VList [v]) = join_value sep v.
Proof. by destruct v. Qed.

Lemma f_insert_ne fld g x (kw : gmap string pyval) dflt :
  fld <> g -> f g (<[fld:=x]> kw) dflt = f g kw dflt.
Proof. intros H. unfold f, lookup_field. by rewrite lookup_insert_ne. Qed.

Lemma pack_insert_ne fld g x (kw : gmap string pyval) dflt sep :
  fld <> g -> pack g (<[fld:=x]> kw) dflt sep = pack g kw dflt sep.
Proof. intros H. unfold pack, lookup_field. by rewrite lookup_insert_ne. Qed.

Lemma pack_insert_eq fld x (kw : gmap string pyval) dflt sep :
  pack fld (<[fld:=x]> kw) dflt sep = Ok (join_value sep x).
Proof. apply pack_present, lookup_insert_eq. Qed.

Lemma contains_insert_ne fld g x (kw : gmap string pyval) :
  fld <> g -> contains g (<[fld:=x]> kw) = contains g kw.
Proof. intros H. unfold contains. by rewrite lookup_insert_ne. Qed.

Lemma contains_insert_eq fld x (kw : gmap string pyval) :
  contains fld (<[fld:=x]> kw) = true.
Proof. unfold contains. by rewrite lookup_insert_eq. Qed.

(** Moves every accessor off an updated parameter set. *)
Ltac read_updated :=
  repeat match goal with
  | |- context [pack ?fld (<[?fld:=?x]> ?kw) ?d ?sep] =>
      rewrite (pack_insert_eq fld x kw d sep)
  | |- context [contains ?fld (<[?fld:=?x]> ?kw)] =>
      rewrite (contains_insert_eq fld x kw)
  | |- context [pack ?g (<[?fld:=?x]> ?kw) ?d ?sep] =>
      rewrite (pack_insert_ne fld g x kw d sep) by discriminate
  | |- context [f ?g (<[?fld:=?x]> ?kw) ?d] =>
      rewrite (f_insert_ne fld g x kw d) by discriminate
  | |- context [contains ?g (<[?fld:=?x]> ?kw)] =>
      rewrite (contains_insert_ne fld g x kw) by discriminate
  end.

(** C5: a one-element sequence packs as the scalar it holds, in [pack] and
    in every command that reads the field through [pack]. *)
Theorem singleton_sequence_as_scalar v :
  is_scalar v ->
  (forall fld (kw : gmap string pyval) dflt sep,
     pack fld (<[fld:=VList [v]]> kw) dflt sep = pack fld (<[fld:=v]> kw) dflt sep)
  /\ (forall c fld (kw : gmap string pyval),
     In (py_upper c, fld) list_joinable ->
     pack_command (VStr c) (<[fld:=VList [v]]> kw)
       = pack_command (VStr c) (<[fld:=v]> kw)).
Proof.
  intros Hv. split.
  - intros fld kw dflt sep.
    by rewrite !pack_insert_eq, join_value_singleton.
  - intros c fld kw Hin. simpl in Hin.
    repeat destruct Hin as [Hin|Hin]; try contradiction;
      injection Hin as Hc <-;
      (rewrite !pack_command_str by (rewrite <- Hc; discriminate));
      rewrite <- Hc; select_rule; read_updated;
      by rewrite join_value_singleton.
Qed.

Lemma singleton_sequence_as_scalar_witness :
  pack_command (VStr "JOIN") (<["channel":=VList [VStr "#a"]]> ∅)
    = pack_command (VStr "JOIN") (<["channel":=VStr "#a"]> ∅).
Proof.
  exact (proj2 (singleton_sequence_as_scalar (VStr "#a") I) "join" "channel" ∅
           ltac:(simpl; tauto)).
Defined.

(** *** Required fields *)

Lemma first_absent_exists fields fld (kw : gmap string pyval) :
  In fld fields -> kw !! fld = None ->
  exists fld', first_absent fields kw = Some fld' /\ In fld' fields /\ kw !! fld' = None.
Proof.
  induction fields as [|g fields IH]; intros Hin Hnone; [contradiction |].
  cbn [first_absent]. destruct (kw !! g) as [x|] eqn:Hg.
  - rewrite (contains_present g kw x Hg).
    destruct Hin as [->|Hin]; [congruence |].
    destruct (IH Hin Hnone) as (fld' & H1 & H2 & H3).
    exists fld'. repeat split; [done | by right | done].
  - rewrite (contains_absent g kw Hg).
    exists g. repeat split; [by left | done].
Qed.

(** What every rule of [required_fields] does when one of its fields is absent. *)
Lemma first_absent_raises c fields fld (kw : gmap string pyval) :
  In (py_upper c, fields) required_fields ->
  first_absent fields kw = Some fld ->
  pack_command (VStr c) kw = Raise (KeyError fld).
Proof.
  intros Hin. simpl in Hin.
  repeat destruct Hin as [Hin|Hin]; try contradiction;
    injection Hin as Hc <-;
    (rewrite pack_command_str by (rewrite <- Hc; discriminate));
    rewrite <- Hc; select_rule; cbn [first_absent];
    split_fields; intros [= <-]; reflexivity.
Qed.

(** C8 (as amended): when a rule lacks one of the fields it always reads
    with no default, [pack_command] raises [KeyError]; the field named is
    the first absent one in the order the rule reads them, so it is the
    field itself when those read before it are present. *)
Theorem required_field_absent :
  (forall c fields fld (kw : gmap string pyval),
     In (py_upper c, fields) required_fields ->
     In fld fields -> kw !! fld = None ->
     exists fld', In fld' fields /\ kw !! fld' = None
       /\ first_absent fields kw = Some fld'
       /\ pack_command (VStr c) kw = Raise (KeyError fld'))
  /\ (forall c fields fld (kw : gmap string pyval),
     In (py_upper c, fields) required_fields ->
     first_absent fields kw = Some fld ->
     pack_command (VStr c) kw = Raise (KeyError fld))
  /\ pack_command (VStr "PASS") ∅ = Raise (KeyError "password").
Proof.
  split; [| split; [| reflexivity]].
  - intros c fields fld kw Hreq Hin Hnone.
    destruct (first_absent_exists fields fld kw Hin Hnone) as (fld' & H1 & H2 & H3).
    exists fld'. repeat split; try done.
    by apply (first_absent_raises c fields).
  - apply first_absent_raises.
Qed.

Lemma required_field_absent_witness :
  pack_command (VStr "OPER") {[ "user" := VStr "AzureDiamond" ]}
    = Raise (KeyError "password").
Proof.
  exact (proj1 (proj2 required_field_absent) "oper" ["user"; "password"] "password"
           {[ "user" := VStr "AzureDiamond" ]} ltac:(simpl; tauto) eq_refl).
Defined.

(** C8 (as stated) fails: OPER reads [password] with no default, yet with
    neither field given the exception names [user]. *)
Lemma oper_first_field_counterexample :
  In ("OPER", ["user"; "password"]) required_fields
  /\ (∅ : gmap string pyval) !! "password" = None
  /\ pack_command (VStr "OPER") ∅ = Raise (KeyError "user")
  /\ pack_command (VStr "OPER") ∅ <> Raise (KeyError "password").
Proof. repeat split; [simpl; tauto | discriminate]. Qed.

(** ** Exceptions *)

(** A supported command returns a line or raises [KeyError] for a field
    the parameter set lacks. *)
Lemma grammar_outcome command (kw : gmap string pyval) :
  In command supported ->
  (exists out, grammar command kw = Ok out)
  \/ (exists k, kw !! k = None /\ grammar command kw = Raise (KeyError k)).
Proof.
  intros Hin. simpl in Hin.
  repeat destruct Hin as [Hin|Hin]; try contradiction;
    rewrite <- Hin; select_rule; split_fields; run_format;
    first [ left; eexists; reflexivity
          | right; eexists; (split; [| reflexivity]); assumption ].
Qed.

Lemma pack_command_not_str command (kw : gmap string pyval) :
  (forall s, command <> VStr s) ->
  pack_command command kw =
    Raise (ValueError (if truthy command then "Command must be a str"
                       else "Must provide a command")).
Proof.
  intros H. unfold pack_command.
  destruct command as [|s|z|l]; [reflexivity | by destruct (H s) | |].
  - by destruct (truthy (VInt z)).
  - by destruct (truthy (VList l)).
Qed.

(** X1: on a command that is [None], an [int], a [list] or a [str] of
    7-bit characters, [pack_command] raises [ValueError] in three cases
    only, each with its own message: a falsy command, a command that is no
    [str], and a name whose upper-case form no rule tests. *)
Theorem value_error_cases command (kw : gmap string pyval) msg :
  ascii_command command ->
  pack_command command kw = Raise (ValueError msg) <->
    (truthy command = false /\ msg = "Must provide a command")
    \/ (truthy command = true /\ (forall s, command <> VStr s)
        /\ msg = "Command must be a str")
    \/ (exists s, command = VStr s /\ s <> "" /\ ~ In (py_upper s) supported
        /\ msg = "Unknown command '" ++ py_upper s ++ "'").
Proof.
  intros _. split.
  - destruct command as [|s|z|l].
    + intros [= <-]. by left.
    + destruct s as [|a s]; [intros [= <-]; by left |].
      rewrite pack_command_str by discriminate. intros H.
      destruct (In_dec string_dec (py_upper (String a s)) supported) as [Hin|Hnot].
      * destruct (grammar_outcome _ kw Hin) as [[out Ho]|(k & _ & Hk)]; congruence.
      * rewrite (grammar_unknown _ kw Hnot) in H. injection H as <-.
        right; right. exists (String a s). by repeat split.
    + rewrite pack_command_not_str by discriminate.
      destruct (truthy (VInt z)) eqn:Ht; intros [= <-]; [right; left | left]; by repeat split.
    + rewrite pack_command_not_str by discriminate.
      destruct (truthy (VList l)) eqn:Ht; intros [= <-]; [right; left | left]; by repeat split.
  - intros [[Ht ->]|[(Ht & Hns & ->)|(s & -> & Hs & Hnot & ->)]].
    + unfold pack_command. by rewrite Ht.
    + rewrite pack_command_not_str by done. by rewrite Ht.
    + rewrite pack_command_str by (by destruct s).
      by apply grammar_unknown.
Qed.

Lemma value_error_cases_witness :
  pack_command (VStr "xyzzy") ∅ = Raise (ValueError "Unknown command 'XYZZY'")
  /\ pack_command (VInt 3) ∅ = Raise (ValueError "Command must be a str").
Proof.
  split.
  - apply (proj2 (value_error_cases (VStr "xyzzy") ∅ "Unknown command 'XYZZY'" eq_refl)).
    right; right. exists "xyzzy". repeat split; [discriminate |].
    intros H. simpl in H. repeat destruct H as [H|H]; discriminate || contradiction.
  - apply (proj2 (value_error_cases (VInt 3) ∅ "Command must be a str" I)).
    right; left. repeat split. discriminate.
Defined.

(** X2: a [KeyError] of [pack_command] names a field the parameter set
    lacks, and the templates never run out of arguments. *)
Theorem key_error_names_absent_field command (kw : gmap string pyval) :
  (forall k, pack_command command kw = Raise (KeyError k) -> kw !! k = None)
  /\ pack_command command kw <> Raise IndexError.
Proof.
  assert (Hcases : (exists out, pack_command command kw = Ok out)
                   \/ (exists k, kw !! k = None /\ pack_command command kw = Raise (KeyError k))
                   \/ (exists msg, pack_command command kw = Raise (ValueError msg))).
  { destruct command as [|s|z|l];
      try (right; right; eexists; by apply pack_command_not_str).
    destruct s as [|a s]; [right; right; by eexists |].
    rewrite pack_command_str by discriminate.
    destruct (In_dec string_dec (py_upper (String a s)) supported) as [Hin|Hnot].
    - destruct (grammar_outcome _ kw Hin) as [H|H]; [by left | right; by left].
    - right; right. eexists. by apply grammar_unknown. }
  destruct Hcases as [[out H]|[(k' & Hk & H)|[msg H]]]; rewrite H; split; try done.
  by intros k [= <-].
Qed.

(** ** When a call succeeds *)

Lemma supported_nonempty command : In command supported -> command <> "".
Proof.
  intros Hin ->. simpl in Hin. repeat destruct Hin as [Hin|Hin]; done.
Qed.

Lemma succeeds_iff_required_present command (kw : gmap string pyval) :
  In command supported -> command <> "LINKS" ->
  (exists out, grammar command kw = Ok out) <-> first_absent (required_of command) kw = None.
Proof.
  intros Hin Hl. simpl in Hin.
  repeat destruct Hin as [Hin|Hin]; try contradiction;
    subst command; try (by destruct Hl); select_rule;
    match goal with
    | |- context [required_of ?name] =>
        let r := eval vm_compute in (required_of name) in
        change (required_of name) with r
    end;
    cbn [first_absent]; split_fields; run_format;
    (split; [intros [out H]; first [reflexivity | discriminate H]
            | intros H; first [discriminate H | eexists; reflexivity]]).
Qed.

Lemma links_succeeds_iff (kw : gmap string pyval) :
  (exists out, grammar "LINKS" kw = Ok out) <->
  (contains "remote" kw = true -> contains "mask" kw = true).
Proof.
  select_rule. split_fields; run_format;
    (split; [intros [out H] Hr; first [reflexivity | discriminate H | discriminate Hr]
            | intros H; first [eexists; reflexivity | by discriminate H]]).
Qed.

(** X3: a supported command other than LINKS returns a line exactly when
    the parameter set holds every field of its [required_fields] entry;
    LINKS returns one exactly when [mask] is given whenever [remote] is. *)
Theorem success_iff_fields_present c (kw : gmap string pyval) :
  In (py_upper c) supported ->
  (exists out, pack_command (VStr c) kw = Ok out) <->
  if String.eqb (py_upper c) "LINKS"
  then contains "remote" kw = true -> contains "mask" kw = true
  else first_absent (required_of (py_upper c)) kw = None.
Proof.
  intros Hin.
  pose proof (supported_nonempty _ Hin) as Hne.
  rewrite pack_command_str by done.
  destruct (String.eqb_spec (py_upper c) "LINKS") as [->|Hl].
  - apply links_succeeds_iff.
  - by apply succeeds_iff_required_present.
Qed.

Lemma success_iff_fields_present_witness :
  (exists out, pack_command (VStr "oper") {[ "user" := VStr "u"; "password" := VStr "p" ]} = Ok out)
  <-> first_absent ["user"; "password"] {[ "user" := VStr "u"; "password" := VStr "p" ]} = None.
Proof.
  exact (success_iff_fields_present "oper" {[ "user" := VStr "u"; "password" := VStr "p" ]}
           ltac:(simpl; tauto)).
Defined.

Lemma contains_mono fld (kw kw' : gmap string pyval) :
  kw ⊆ kw' -> contains fld kw = true -> contains fld kw' = true.
Proof.
  intros Hsub. unfold contains. destruct (kw !! fld) as [v|] eqn:Hv; [| done].
  by rewrite (lookup_weaken kw kw' fld v Hv Hsub).
Qed.

Lemma first_absent_mono fields (kw kw' : gmap string pyval) :
  kw ⊆ kw' -> first_absent fields kw = None -> first_absent fields kw' = None.
Proof.
  intros Hsub. induction fields as [|g fields IH]; [done |].
  cbn [first_absent]. destruct (contains g kw) eqn:Hg; [| done].
  rewrite (contains_mono g kw kw' Hsub Hg). exact IH.
Qed.

(** X4: for every supported command but LINKS, a call that returns a line
    still returns one on any larger parameter set.  LINKS is left out: its
    rule needs [mask] once [remote] is given. *)
Theorem success_preserved_by_more_fields c (kw kw' : gmap string pyval) :
  In (py_upper c) supported -> py_upper c <> "LINKS" -> kw ⊆ kw' ->
  (exists out, pack_command (VStr c) kw = Ok out) ->
  exists out', pack_command (VStr c) kw' = Ok out'.
Proof.
  intros Hin Hl Hsub.
  pose proof (supported_nonempty _ Hin) as Hne.
  rewrite !pack_command_str by done.
  rewrite !succeeds_iff_required_present by done.
  by apply first_absent_mono.
Qed.

Lemma success_preserved_by_more_fields_witness :
  exists out', pack_command (VStr "NICK") {[ "nick" := VStr "Wiz"; "extra" := VInt 1 ]} = Ok out'.
Proof.
  refine (success_preserved_by_more_fields "NICK" {[ "nick" := VStr "Wiz" ]}
            {[ "nick" := VStr "Wiz"; "extra" := VInt 1 ]} _ _ _ _).
  - simpl; tauto.
  - discriminate.
  - rewrite <- (insert_empty (M := gmap string) "nick" (VStr "Wiz")).
    apply insert_mono, map_empty_subseteq.
  - eexists. reflexivity.
Defined.

(** ** Parameter sets *)

Lemma f_insert_eq fld x (kw : gmap string pyval) dflt :
  f fld (<[fld:=x]> kw) dflt = Ok (py_str x).
Proof. apply f_present, lookup_insert_eq. Qed.

(** Moves every accessor off a parameter set updated at [g], the side
    conditions being closed by [tac]. *)
Ltac read_inserted tac :=
  repeat match goal with
  | |- context [f ?g (<[?g:=?x]> ?kw) ?d] => rewrite (f_insert_eq g x kw d)
  | |- context [pack ?g (<[?g:=?x]> ?kw) ?d ?sep] => rewrite (pack_insert_eq g x kw d sep)
  | |- context [contains ?g (<[?g:=?x]> ?kw)] => rewrite (contains_insert_eq g x kw)
  | |- context [f ?h (<[?g:=?x]> ?kw) ?d] => rewrite (f_insert_ne g h x kw d) by tac
  | |- context [pack ?h (<[?g:=?x]> ?kw) ?d ?sep] =>
      rewrite (pack_insert_ne g h x kw d sep) by tac
  | |- context [contains ?h (<[?g:=?x]> ?kw)] => rewrite (contains_insert_ne g h x kw) by tac
  end.

(** X5: a parameter the rule of a supported command does not name has no
    effect on the result, output or exception. *)
Theorem unread_field_ignored c fields g x (kw : gmap string pyval) :
  In (py_upper c, fields) fields_read -> ~ In g fields ->
  pack_command (VStr c) (<[g:=x]> kw) = pack_command (VStr c) kw.
Proof.
  intros Hin Hg. simpl in Hin.
  repeat destruct Hin as [Hin|Hin]; try contradiction;
    injection Hin as Hc <-;
    (rewrite !pack_command_str by (rewrite <- Hc; discriminate));
    rewrite <- Hc; select_rule;
    read_inserted ltac:(intros ->; apply Hg; simpl; tauto);
    reflexivity.
Qed.

Lemma unread_field_ignored_witness :
  pack_command (VStr "nick") (<["password":=VStr "x"]> {[ "nick" := VStr "Wiz" ]})
    = pack_command (VStr "nick") {[ "nick" := VStr "Wiz" ]}.
Proof.
  refine (unread_field_ignored "nick" ["nick"] "password" (VStr "x")
            {[ "nick" := VStr "Wiz" ]} _ _).
  - simpl; tauto.
  - intros [H|[]]; discriminate H.
Defined.

(** X6: giving [message] to QUIT, SQUIT, PART, TOPIC, PING, PONG or AWAY
    appends a space, a colon and the message to the line the command
    returns without it; KICK does the same with the packed message. *)
Theorem message_is_appended c (kw : gmap string pyval) m out :
  kw !! "message" = None ->
  pack_command (VStr c) kw = Ok out ->
  (In (py_upper c) message_suffix_commands ->
     pack_command (VStr c) (<["message":=m]> kw) = Ok (out ++ " :" ++ py_str m))
  /\ (py_upper c = "KICK" ->
     pack_command (VStr c) (<["message":=m]> kw) = Ok (out ++ " :" ++ join_value "," m)).
Proof.
  intros Hm Hout. split; intros Hin.
  - simpl in Hin.
    repeat destruct Hin as [Hin|Hin]; try contradiction;
      revert Hout;
      (rewrite !pack_command_str by (rewrite <- Hin; discriminate));
      rewrite <- Hin; select_rule;
      read_inserted ltac:(discriminate); read_fields; split_fields; run_format;
      intros [= <-]; reflexivity.
  - revert Hout.
    rewrite !pack_command_str by (rewrite Hin; discriminate).
    rewrite Hin; select_rule.
    read_inserted ltac:(discriminate); read_fields; split_fields; run_format;
      intros [= <-]; reflexivity.
Qed.

Lemma message_is_appended_witness :
  pack_command (VStr "PART") (<["message":=VStr "I lost"]> {[ "channel" := VStr "#foo" ]})
    = Ok "PART #foo :I lost".
Proof.
  exact (proj1 (message_is_appended "PART" {[ "channel" := VStr "#foo" ]} (VStr "I lost")
                  "PART #foo" eq_refl eq_refl)
           ltac:(simpl; tauto)).
Defined.

(** X7: giving an optional field the value of its default returns the
    same result as leaving the field out. *)
Theorem explicit_default_same_as_omitted c fld d (kw : gmap string pyval) :
  In (py_upper c, fld, d) optional_defaults -> kw !! fld = None ->
  pack_command (VStr c) (<[fld:=d]> kw) = pack_command (VStr c) kw.
Proof.
  intros Hin Hnone. simpl in Hin.
  repeat destruct Hin as [Hin|Hin]; try contradiction;
    injection Hin as Hc <- <-;
    (rewrite !pack_command_str by (rewrite <- Hc; discriminate));
    rewrite <- Hc; select_rule;
    read_inserted ltac:(discriminate); read_fields; reflexivity.
Qed.

Lemma explicit_default_same_as_omitted_witness :
  pack_command (VStr "USER")
      (<["mode":=VInt 0]> {[ "user" := VStr "guest"; "realname" := VStr "Ronnie Reagan" ]})
    = pack_command (VStr "USER") {[ "user" := VStr "guest"; "realname" := VStr "Ronnie Reagan" ]}.
Proof.
  exact (explicit_default_same_as_omitted "USER" "mode" (VInt 0)
           {[ "user" := VStr "guest"; "realname" := VStr "Ronnie Reagan" ]}
           ltac:(simpl; tauto) eq_refl).
Defined.

(** X8: [pack] and [f] raise the same exceptions, and return the same text
    whenever the value they read is no sequence. *)
Theorem pack_agrees_with_f_on_scalars fld (kw : gmap string pyval) dflt sep :
  (forall e, pack fld kw dflt sep = Raise e <-> f fld kw dflt = Raise e)
  /\ (forall v, lookup_field fld kw dflt = Ok v -> is_scalar v ->
       pack fld kw dflt sep = f fld kw dflt).
Proof.
  unfold pack, f. destruct (lookup_field fld kw dflt) as [v|e'] eqn:Hl; split.
  - intros e. simpl. split; discriminate.
  - intros v' [= <-] Hv. simpl. by destruct v.
  - intros e. simpl. reflexivity.
  - intros v' H. discriminate H.
Qed.

Lemma pack_agrees_with_f_on_scalars_witness :
  pack "count" {[ "count" := VInt 9 ]} missing "," = f "count" {[ "count" := VInt 9 ]} missing.
Proof.
  exact (proj2 (pack_agrees_with_f_on_scalars "count" {[ "count" := VInt 9 ]} missing ",")
           (VInt 9) eq_refl I).
Defined.

(** X9: NAMES, LIST, LUSERS, STATS and WHO without their one field return
    the command word followed by a space, not the bare word. *)
Theorem single_optional_field_absent c fld (kw : gmap string pyval) :
  In (py_upper c, fld) single_optional_field -> kw !! fld = None ->
  pack_command (VStr c) kw = Ok (py_upper c ++ " ")
  /\ pack_command (VStr c) kw <> Ok (py_upper c).
Proof.
  intros Hin Hnone. simpl in Hin.
  repeat destruct Hin as [Hin|Hin]; try contradiction;
    injection Hin as Hc <-;
    (rewrite !pack_command_str by (rewrite <- Hc; discriminate));
    rewrite <- Hc; select_rule; read_fields;
    (split; [reflexivity | intros H; vm_compute in H; discriminate H]).
Qed.

Lemma single_optional_field_absent_witness :
  pack_command (VStr "names") ∅ = Ok "NAMES "
  /\ pack_command (VStr "names") ∅ <> Ok "NAMES".
Proof.
  exact (single_optional_field_absent "names" "channel" ∅ ltac:(simpl; tauto) eq_refl).
Defined.

(** ** Values are read through [str] *)

Lemma f_str_insert h g v (kw : gmap string pyval) dflt :
  f h (<[g:=VStr (py_str v)]> kw) dflt = f h (<[g:=v]> kw) dflt.
Proof.
  destruct (decide (g = h)) as [->|Hne].
  - by rewrite !f_insert_eq.
  - by rewrite !f_insert_ne.
Qed.

Lemma pack_str_insert h g v (kw : gmap string pyval) dflt sep :
  is_scalar v ->
  pack h (<[g:=VStr (py_str v)]> kw) dflt sep = pack h (<[g:=v]> kw) dflt sep.
Proof.
  intros Hv. destruct (decide (g = h)) as [->|Hne].
  - rewrite !pack_insert_eq. by destruct v.
  - by rewrite !pack_insert_ne.
Qed.

Lemma contains_str_insert h g v (kw : gmap string pyval) :
  contains h (<[g:=VStr (py_str v)]> kw) = contains h (<[g:=v]> kw).
Proof.
  destruct (decide (g = h)) as [->|Hne].
  - by rewrite !contains_insert_eq.
  - by rewrite !contains_insert_ne.
Qed.

(** Two parameter sets on which the three accessors agree give the same
    result. *)
Lemma grammar_ext command (kw1 kw2 : gmap string pyval) :
  (forall h d, f h kw1 d = f h kw2 d) ->
  (forall h d sep, pack h kw1 d sep = pack h kw2 d sep) ->
  (forall h, contains h kw1 = contains h kw2) ->
  grammar command kw1 = grammar command kw2.
Proof.
  intros Hf Hp Hc. unfold grammar.
  repeat match goal with
  | |- context [f ?h kw1 ?d] => rewrite (Hf h d)
  | |- context [pack ?h kw1 ?d ?sep] => rewrite (Hp h d sep)
  | |- context [contains ?h kw1] => rewrite (Hc h)
  end.
  reflexivity.
Qed.

(** X10: a value that is no sequence is used through [str] only: giving
    its string form instead returns the same result, for every command
    and every field. *)
Theorem scalar_same_as_its_str command g v (kw : gmap string pyval) :
  is_scalar v ->
  pack_command command (<[g:=VStr (py_str v)]> kw) = pack_command command (<[g:=v]> kw).
Proof.
  intros Hv. destruct command as [|s|z|l].
  - by rewrite !pack_command_not_str by discriminate.
  - unfold pack_command. destruct (truthy (VStr s)); cbn [negb]; [| reflexivity].
    apply grammar_ext.
    + intros h d. apply f_str_insert.
    + intros h d sep. by apply pack_str_insert.
    + intros h. apply contains_str_insert.
  - by rewrite !pack_command_not_str by discriminate.
  - by rewrite !pack_command_not_str by discriminate.
Qed.

Lemma scalar_same_as_its_str_witness :
  pack_command (VStr "CONNECT")
      (<["port":=VStr "6667"]> {[ "target" := VStr "tolsun.oulu.fi" ]})
    = pack_command (VStr "CONNECT")
        (<["port":=VInt 6667]> {[ "target" := VStr "tolsun.oulu.fi" ]}).
Proof.
  exact (scalar_same_as_its_str (VStr "CONNECT") "port" (VInt 6667)
           {[ "target" := VStr "tolsun.oulu.fi" ]} I).
Defined.
